(** * type_bridge.attribute: attribute classes, cardinality markers and
      ownership flags

    A shallow embedding of [type_bridge/attribute.py].  Python strings are
    [string], Python [int] is [Z], [x | None] is [option], a raised
    exception is the left summand of [result]. *)

From Stdlib Require Import String Ascii List ZArith Bool Lia DecimalString.
From Stdlib Require DecimalPos DecimalZ.
Import ListNotations.

Local Open Scope string_scope.
Local Open Scope Z_scope.

(** ** Exceptions and the error monad *)

(** A raised exception: the name of its class and its message. *)
Record PyExc := mkExc { exc_class : string; exc_msg : string }.

Definition result (A : Type) : Type := (PyExc + A)%type.

Definition ret {A} (a : A) : result A := inr a.
Definition raise {A} (e : PyExc) : result A := inl e.
Definition bind {A B} (m : result A) (k : A -> result B) : result B :=
  match m with
  | inl e => inl e
  | inr a => k a
  end.

Notation "x <- m ;; k" := (bind m (fun x => k))
  (at level 61, m at next level, right associativity).

Definition ValueError (msg : string) : PyExc := mkExc "ValueError" msg.

(** Evaluation of an argument list, left to right; the first exception
    aborts the rest. *)
Fixpoint mapM {A B} (f : A -> result B) (l : list A) : result (list B) :=
  match l with
  | [] => ret []
  | a :: l' => b <- f a ;; bs <- mapM f l' ;; ret (b :: bs)
  end.

(** ** Formatting *)

(** [str(n)] for a Python [int], as an f-string interpolates it. *)
Definition str_int (n : Z) : string := NilZero.string_of_int (Z.to_int n).

(** Python truthiness of a [str | None] class attribute. *)
Definition truthy (o : option string) : bool :=
  match o with
  | Some (String _ _) => true
  | _ => false
  end.

(** ** Card *)

Module Card.

Record t := mk { min : option Z; max : option Z }.

(** [Card.__init__(self, *args, min=None, max=None)]. *)
Definition __init__ (args : list Z) (min max : option Z) : result t :=
  match args with
  | _ :: _ =>
      match args with
      | [a0] => ret (mk (Some a0) max)
      | [a0; a1] => ret (mk (Some a0) (Some a1))
      | _ => raise (ValueError "Card accepts at most 2 positional arguments")
      end
  | [] =>
      match min, max with
      | None, Some _ => ret (mk (Some 0) max)
      | _, _ => ret (mk min max)
      end
  end.

End Card.

(** ** AttributeFlags *)

Record AttributeFlags := mkFlags {
  is_key : bool;
  is_unique : bool;
  card_min : option Z;
  card_max : option Z;
  has_explicit_card : bool
}.

(** The dataclass defaults: [AttributeFlags()]. *)
Definition AttributeFlags_default : AttributeFlags :=
  mkFlags false false None None false.

Definition is_Some {A} (o : option A) : bool :=
  match o with Some _ => true | None => false end.

(** [self.card_min == 1], on an [int | None]. *)
Definition eq_int (o : option Z) (n : Z) : bool :=
  match o with Some m => Z.eqb m n | None => false end.

(** [list.append]. *)
Definition append {A} (l : list A) (x : A) : list A := (l ++ [x])%list.

(** [AttributeFlags.to_typeql_annotations]. *)
Definition to_typeql_annotations (self : AttributeFlags) : list string :=
  let annotations : list string := [] in
  let annotations :=
    if is_key self then append annotations "@key" else annotations in
  let annotations :=
    if is_unique self then append annotations "@unique" else annotations in
  let should_output_card :=
    is_Some (card_min self) || is_Some (card_max self) in
  if should_output_card && negb (is_key self) then
    let is_default_card :=
      eq_int (card_min self) 1 && eq_int (card_max self) 1 in
    if negb (is_unique self && is_default_card) then
      let min_val := match card_min self with Some m => m | None => 0 end in
      match card_max self with
      | Some mx =>
          append annotations
            ("@card(" ++ str_int min_val ++ ".." ++ str_int mx ++ ")")
      | None =>
          append annotations ("@card(" ++ str_int min_val ++ "..)")
      end
    else annotations
  else annotations.

(** ** Flag *)

(** What the variadic [annotations] of [Flag] can hold: the two
    module-level marker aliases, a [Card] instance, or any other object. *)
Inductive PyObj :=
| Key
| Unique
| CardObj (c : Card.t)
| NoneObj
| IntObj (n : Z)
| StrObj (s : string)
| BoolObj (b : bool).

(** One turn of the [for ann in annotations] loop, on the pair
    [(flags, has_card)]. *)
Definition Flag_step (st : AttributeFlags * bool) (ann : PyObj)
  : AttributeFlags * bool :=
  let '(flags, has_card) := st in
  match ann with
  | Key =>
      (mkFlags true (is_unique flags) (card_min flags) (card_max flags)
         (has_explicit_card flags), has_card)
  | Unique =>
      (mkFlags (is_key flags) true (card_min flags) (card_max flags)
         (has_explicit_card flags), has_card)
  | CardObj c =>
      (mkFlags (is_key flags) (is_unique flags) (Card.min c) (Card.max c)
         true, true)
  | _ => (flags, has_card)
  end.

Definition Flag (annotations : list PyObj) : AttributeFlags :=
  let '(flags, has_card) :=
    fold_left Flag_step annotations (AttributeFlags_default, false) in
  if is_key flags && negb has_card then
    mkFlags (is_key flags) (is_unique flags) (Some 1) (Some 1)
      (has_explicit_card flags)
  else flags.

(** A field declaration [field: T = Flag(e1, ..., en)]: each argument is
    an object already at hand or a call of the [Card] constructor, and
    Python evaluates the arguments before it calls [Flag]. *)
Inductive ArgExpr :=
| Const (o : PyObj)
| CardCall (args : list Z) (min max : option Z).

Definition eval_arg (e : ArgExpr) : result PyObj :=
  match e with
  | Const o => ret o
  | CardCall args min max => c <- Card.__init__ args min max ;; ret (CardObj c)
  end.

Definition Flag_call (es : list ArgExpr) : result AttributeFlags :=
  annotations <- mapM eval_arg es ;; ret (Flag annotations).

(** Whether an annotation string is a cardinality annotation. *)
Definition is_card_annotation (a : string) : bool := prefix "@card" a.

(** The annotations a declared field ends up with. *)
Definition field_annotations (es : list ArgExpr) : result (list string) :=
  flags <- Flag_call es ;; ret (to_typeql_annotations flags).

(** ** Attribute classes *)

(** The class attributes one class body can bind; [None] is a name the
    body leaves unbound, to be found further along the MRO. *)
Record Namespace := mkNS {
  _attr_name : option (option string);
  value_type : option string;
  abstract : option bool;
  _supertype : option (option string)
}.

(** A class object: its name, its own namespace, and the namespaces of
    the rest of its MRO, nearest base first. *)
Record PyClass := mkClass {
  __name__ : string;
  __dict__ : Namespace;
  bases_mro : list Namespace
}.

Definition __mro__ (cls : PyClass) : list Namespace :=
  __dict__ cls :: bases_mro cls.

Definition AttributeError (msg : string) : PyExc := mkExc "AttributeError" msg.

(** Class attribute lookup [cls.<name>]: the first namespace of the MRO
    that binds the name. *)
Fixpoint lookup {A} (field : Namespace -> option A) (mro : list Namespace)
  : option A :=
  match mro with
  | [] => None
  | ns :: rest =>
      match field ns with
      | Some v => Some v
      | None => lookup field rest
      end
  end.

Definition getattr {A} (cls : PyClass) (field : Namespace -> option A)
    (name : string) : result A :=
  match lookup field (__mro__ cls) with
  | Some v => ret v
  | None => raise (AttributeError name)
  end.

(** The body of [class Attribute(ABC)]: [value_type] is annotated only. *)
Definition Attribute : PyClass :=
  mkClass "Attribute" (mkNS (Some None) None (Some false) (Some None)) [].

Definition pass : Namespace := mkNS None None None None.

Section Classes.

(** The builtin [str.lower]. *)
Variable lower : string -> string.

(** [Attribute.__init_subclass__]: binds [_attr_name] in the new class's
    own namespace. *)
Definition __init_subclass__ (cls : PyClass) : PyClass :=
  let d := __dict__ cls in
  mkClass (__name__ cls)
    (mkNS (Some (Some (lower (__name__ cls)))) (value_type d) (abstract d)
       (_supertype d))
    (bases_mro cls).

(** The statement [class name(base): body]: the class is created with
    the body's namespace, then [__init_subclass__] runs on it. *)
Definition class_def (name : string) (base : PyClass) (body : Namespace)
  : PyClass :=
  __init_subclass__ (mkClass name body (__mro__ base)).

(** [Attribute.get_attribute_name]. *)
Definition get_attribute_name (cls : PyClass) : result string :=
  attr_name <- getattr cls _attr_name "_attr_name" ;;
  if truthy attr_name
  then ret (match attr_name with Some s => s | None => "" end)
  else ret (lower (__name__ cls)).

(** [Attribute.get_value_type]. *)
Definition get_value_type (cls : PyClass) : result string :=
  getattr cls value_type "value_type".

(** [Attribute.get_supertype]. *)
Definition get_supertype (cls : PyClass) : result (option string) :=
  getattr cls _supertype "_supertype".

(** [Attribute.is_abstract]. *)
Definition is_abstract (cls : PyClass) : result bool :=
  getattr cls abstract "abstract".

(** [Attribute.to_schema_definition]. *)
Definition to_schema_definition (cls : PyClass) : result string :=
  attr_name <- get_attribute_name cls ;;
  value_type <- get_value_type cls ;;
  supertype <- getattr cls _supertype "_supertype" ;;
  let definition :=
    match supertype with
    | Some (String c s) =>
        "attribute " ++ attr_name ++ " sub " ++ String c s
          ++ ", value " ++ value_type
    | _ => "attribute " ++ attr_name ++ ", value " ++ value_type
    end in
  is_abs <- getattr cls abstract "abstract" ;;
  let definition :=
    if (is_abs : bool) then definition ++ ", abstract" else definition in
  ret (definition ++ ";").

(** The five concrete value kinds of the module. *)
Definition String_ : PyClass :=
  class_def "String" Attribute (mkNS None (Some "string") None None).
Definition Long : PyClass :=
  class_def "Long" Attribute (mkNS None (Some "long") None None).
Definition Double : PyClass :=
  class_def "Double" Attribute (mkNS None (Some "double") None None).
Definition Boolean : PyClass :=
  class_def "Boolean" Attribute (mkNS None (Some "boolean") None None).
Definition DateTime : PyClass :=
  class_def "DateTime" Attribute (mkNS None (Some "datetime") None None).

(** Subclasses of [Attribute], by the class statements that build them. *)
Inductive attribute_subclass : PyClass -> Prop :=
| sub_Attribute name body :
    attribute_subclass (class_def name Attribute body)
| sub_subclass name base body :
    attribute_subclass base ->
    attribute_subclass (class_def name base body).

End Classes.

(** [str.lower] on ASCII text. *)
Definition ascii_lower_char (c : ascii) : ascii :=
  let n := nat_of_ascii c in
  if (Nat.leb 65 n && Nat.leb n 90)%bool then ascii_of_nat (n + 32) else c.

Fixpoint ascii_lower (s : string) : string :=
  match s with
  | EmptyString => EmptyString
  | String c s' => String (ascii_lower_char c) (ascii_lower s')
  end.

(** The grammar the specification gives for the definition text,
    [attribute <name>[, sub <super>], value <kind>[, abstract];], clause by
    clause. *)
Definition schema_grammar (name : string) (supertype : option string)
    (kind : string) (is_abs : bool) : string :=
  "attribute " ++ name
    ++ match supertype with Some s => ", sub " ++ s | None => "" end
    ++ ", value " ++ kind
    ++ (if is_abs then ", abstract" else "")
    ++ ";".

(** The text [to_schema_definition] builds: no comma before [sub]. *)
Definition schema_text (name : string) (supertype : option string)
    (kind : string) (is_abs : bool) : string :=
  "attribute " ++ name
    ++ (if truthy supertype
        then " sub " ++ match supertype with Some s => s | None => "" end
        else "")
    ++ ", value " ++ kind
    ++ (if is_abs then ", abstract" else "")
    ++ ";".

(** ** Reading the argument list of [Flag] *)

Definition isKey (o : PyObj) : bool :=
  match o with Key => true | _ => false end.
Definition isUnique (o : PyObj) : bool :=
  match o with Unique => true | _ => false end.
Definition isCard (o : PyObj) : bool :=
  match o with CardObj _ => true | _ => false end.

(** The last [Card] instance of the argument list, the one whose bounds
    survive the loop. *)
Fixpoint last_Card (anns : list PyObj) : option Card.t :=
  match anns with
  | [] => None
  | a :: rest =>
      match last_Card rest with
      | Some c => Some c
      | None => match a with CardObj c => Some c | _ => None end
      end
  end.

(** The objects the loop of [Flag] reacts to. *)
Definition is_marker (o : PyObj) : bool := isKey o || isUnique o || isCard o.

(** ** Filter predicates

    The query layer (keyword lookups, role-field expressions, the filter
    compiler) is exercised by [tests/integration/queries] but its code is
    not part of the sources at hand. *)

(** Modelled from the spec: the operators of a Predicate; the expression
    classes are missing from the sources. *)
Inductive Operator :=
| op_eq | op_neq | op_gt | op_gte | op_lt | op_lte | op_contains | op_like.

(** Modelled from the spec: the operator suffixes of a keyword lookup,
    [op] in {eq, neq, gt, gte, lt, lte, contains, like}; the parser is
    missing from the sources. *)
Definition op_name (o : Operator) : string :=
  match o with
  | op_eq => "eq" | op_neq => "neq"
  | op_gt => "gt" | op_gte => "gte"
  | op_lt => "lt" | op_lte => "lte"
  | op_contains => "contains" | op_like => "like"
  end.

Definition all_operators : list Operator :=
  [op_eq; op_neq; op_gt; op_gte; op_lt; op_lte; op_contains; op_like].

(** Modelled from the spec: recognising a known operator suffix; the
    parser is missing from the sources. *)
Definition parse_op (s : string) : option Operator :=
  find (fun o => String.eqb (op_name o) s) all_operators.

(** Modelled from the spec: the primitive kinds of a value type; the
    registry is missing from the sources. *)
Inductive ValueKind :=
| kind_string | kind_integer | kind_double | kind_boolean | kind_datetime.

Definition ValueKind_eqb (a b : ValueKind) : bool :=
  match a, b with
  | kind_string, kind_string | kind_integer, kind_integer
  | kind_double, kind_double | kind_boolean, kind_boolean
  | kind_datetime, kind_datetime => true
  | _, _ => false
  end.

(** Modelled from the spec: a primitive operand, doubles and datetimes
    by their literal text; the expression classes are missing from the
    sources. *)
Inductive Primitive :=
| PStr (s : string)
| PInt (n : Z)
| PBool (b : bool)
| PDouble (literal : string)
| PDateTime (iso : string).

(** Modelled from the spec: the internal Predicate shape,
    [(pathSegments: ordered sequence of string, operator, operand:
    primitive value)]; its class is missing from the sources. *)
Record Predicate := mkPred {
  pathSegments : list string;
  operator : Operator;
  operand : Primitive
}.

Definition cons_head (c : ascii) (l : list string) : list string :=
  match l with
  | h :: t => String c h :: t
  | [] => [String c ""]
  end.

(** Modelled from the spec: the double-underscore-delimited segments of
    a key, as [key.split("__")] finds them, left to right; the parser is
    missing from the sources. *)
Fixpoint split_dunder (s : string) : list string :=
  match s with
  | "" => [""]
  | String c s' =>
      match s' with
      | String c' rest =>
          if (Ascii.eqb c "_" && Ascii.eqb c' "_")%bool
          then "" :: split_dunder rest
          else cons_head c (split_dunder s')
      | "" => [String c ""]
      end
  end.

(** Modelled from the spec: a keyword-lookup key [a__b__op] is cut at the
    double underscores, its last segment is taken for the operator when it
    is a known one (and is not the only segment), otherwise the operator
    is [eq] and every segment belongs to the path; the parser is missing
    from the sources. *)
Definition parse_lookup (key : string) (value : Primitive) : Predicate :=
  let segments := split_dunder key in
  match rev segments with
  | last :: (_ :: _) as front =>
      match parse_op last with
      | Some op => mkPred (rev front) op value
      | None => mkPred segments op_eq value
      end
  | _ => mkPred segments op_eq value
  end.

(** Modelled from the spec: the typed accessor [Relation.role.attribute],
    with the value kind the attribute resolves to; the expression classes
    are missing from the sources. *)
Record RoleField := mkRoleField {
  rf_role : string;
  rf_attribute : string;
  rf_kind : ValueKind
}.

(** Modelled from the spec: a typed operand such as [Age(25)], its
    declared kind and its primitive value; operands reach the query layer,
    which is missing from the sources, in this form. *)
Record TypedOperand := mkOperand {
  operand_kind : ValueKind;
  operand_value : Primitive
}.

Definition TypeMismatchError (msg : string) : PyExc :=
  mkExc "TypeMismatchError" msg.
Definition SchemaError (msg : string) : PyExc := mkExc "SchemaError" msg.

(** Modelled from the spec: the value kind of a primitive operand; the
    expression classes are missing from the sources. *)
Definition kind_of (v : Primitive) : ValueKind :=
  match v with
  | PStr _ => kind_string
  | PInt _ => kind_integer
  | PBool _ => kind_boolean
  | PDouble _ => kind_double
  | PDateTime _ => kind_datetime
  end.

(** Modelled from the spec: [eq] and [neq] are valid on every kind,
    [gt], [gte], [lt], [lte] only on the ordered kinds (numeric,
    datetime), [contains] and [like] only on strings; the expression
    classes are missing from the sources. *)
Definition op_valid (op : Operator) (k : ValueKind) : bool :=
  match op with
  | op_eq | op_neq => true
  | op_gt | op_gte | op_lt | op_lte =>
      match k with
      | kind_integer | kind_double | kind_datetime => true
      | _ => false
      end
  | op_contains | op_like =>
      match k with
      | kind_string => true
      | _ => false
      end
  end.

(** Modelled from the spec: an operator call on a role-field accessor
    yields a Predicate directly, after the operand's declared value type
    is checked against the attribute's ([TypeMismatchError]) and the
    operator against the attribute's kind; the specification names no
    error of its own for an operator that is not valid on the kind, the
    construction-time error is used for it; the expression classes are
    missing from the sources. *)
Definition role_field_op (f : RoleField) (op : Operator) (v : TypedOperand)
  : result Predicate :=
  if negb (ValueKind_eqb (rf_kind f) (operand_kind v))
  then raise (TypeMismatchError (rf_attribute f))
  else if negb (op_valid op (rf_kind f))
  then raise (TypeMismatchError (op_name op))
  else ret (mkPred [rf_role f; rf_attribute f] op (operand_value v)).

(** Modelled from the spec: the relation under query, its own attribute
    fields with their value kinds and, for each role, the attribute
    fields of its player type; the schema model is missing from the
    sources. *)
Record RelationSchema := mkSchema {
  own_attributes : list (string * ValueKind);
  roles : list (string * list (string * ValueKind))
}.

(** Modelled from the spec: the declared field of a given name, with its
    value kind; the schema model is missing from the sources. *)
Definition find_kind (a : string) (fields : list (string * ValueKind))
  : option ValueKind :=
  match find (fun f => String.eqb (fst f) a) fields with
  | Some (_, k) => Some k
  | None => None
  end.

(** Modelled from the spec: an unqualified path resolves against the type
    under query, a role-qualified one through the role to its player, and
    gives the value kind of the attribute it ends in; unknown role,
    unknown attribute or wrong arity is a [SchemaError]; the compiler is
    missing from the sources. *)
Definition resolve_path (sch : RelationSchema) (path : list string)
  : result ValueKind :=
  match path with
  | [a] =>
      match find_kind a (own_attributes sch) with
      | Some k => ret k
      | None => raise (SchemaError a)
      end
  | [r; a] =>
      match find (fun ra => String.eqb (fst ra) r) (roles sch) with
      | Some (_, fields) =>
          match find_kind a fields with
          | Some k => ret k
          | None => raise (SchemaError a)
          end
      | None => raise (SchemaError r)
      end
  | _ => raise (SchemaError "arity")
  end.

(** Modelled from the spec: a predicate is accepted when its path
    resolves, the resolved attribute's value kind is the operand's, and
    the operator is valid on that kind; the specification names no error
    of its own for the last two at compile time, the compile-time error is
    used for them; the compiler is missing from the sources. *)
Definition check_predicate (sch : RelationSchema) (p : Predicate)
  : result unit :=
  k <- resolve_path sch (pathSegments p) ;;
  if negb (ValueKind_eqb (kind_of (operand p)) k)
  then raise (SchemaError "operand")
  else if negb (op_valid (operator p) k)
  then raise (SchemaError (op_name (operator p)))
  else ret tt.

(** Modelled from the spec: one argument of a filter call, a keyword
    lookup or a typed expression's Predicate; the filter entry point is
    missing from the sources. *)
Inductive FilterEntry :=
| Lookup (key : string) (value : Primitive)
| Expr (p : Predicate).

(** Modelled from the spec: every entry is brought to the Predicate
    shape; the compiler is missing from the sources. *)
Definition normalize (e : FilterEntry) : Predicate :=
  match e with
  | Lookup key value => parse_lookup key value
  | Expr p => p
  end.

Section Compiler.

(** Modelled from the spec: the text of a query fragment for a list of
    resolved predicates, which the specification does not fix; the
    compiler is missing from the sources. *)
Variable emit : list Predicate -> string.

(** Modelled from the spec: every entry is normalized to the Predicate
    shape, every predicate is resolved and checked against the schema,
    and the fragment is emitted from the predicates in insertion order;
    no fragment is emitted when a predicate fails; the compiler is
    missing from the sources. *)
Definition compile (sch : RelationSchema) (entries : list FilterEntry)
  : result string :=
  let predicates := map normalize entries in
  _ <- mapM (check_predicate sch) predicates ;;
  ret (emit predicates).

End Compiler.

(** A segment a keyword path can carry unchanged: no underscore in it is
    followed by another one, and none ends it. *)
Fixpoint clean_segment (s : string) : bool :=
  match s with
  | "" => true
  | String c s' =>
      if Ascii.eqb c "_" then
        match s' with
        | "" => false
        | String c' _ => negb (Ascii.eqb c' "_") && clean_segment s'
        end
      else clean_segment s'
  end.

(** The keyword spelling of a role-qualified predicate:
    [role__attribute__op]. *)
Definition lookup_key (role attribute : string) (op : Operator) : string :=
  role ++ "__" ++ attribute ++ "__" ++ op_name op.

(** The classes reached from [root] by class statements whose bodies do
    not bind [value_type]. *)
Inductive keeps_value_type (lower : string -> string) (root : PyClass)
  : PyClass -> Prop :=
| keeps_root : keeps_value_type lower root root
| keeps_step name base body :
    keeps_value_type lower root base ->
    value_type body = None ->
    keeps_value_type lower root (class_def lower name base body).

(** Whether a character occurs in a string. *)
Fixpoint occurs (c : ascii) (s : string) : bool :=
  match s with
  | "" => false
  | String x s' => Ascii.eqb x c || occurs c s'
  end.

(** Closes a goal [is_card_annotation a = false] from [H : In a l] for a
    literal list [l] of non-card annotations. *)
Ltac no_card_in H :=
  simpl in H;
  repeat (destruct H as [H | H]; [subst; reflexivity|]);
  contradiction.

(** * Properties *)

(** ** What [Flag] computes *)

Lemma Flag_loop (anns : list PyObj) : forall f b,
  fold_left Flag_step anns (f, b) =
  (mkFlags (is_key f || existsb isKey anns)
           (is_unique f || existsb isUnique anns)
           (match last_Card anns with Some c => Card.min c | None => card_min f end)
           (match last_Card anns with Some c => Card.max c | None => card_max f end)
           (has_explicit_card f || is_Some (last_Card anns)),
   b || is_Some (last_Card anns)).
Proof.
  induction anns as [|a rest IH]; intros f b.
  - destruct f; simpl. now rewrite !orb_false_r.
  - simpl fold_left. destruct a; simpl Flag_step; rewrite IH; simpl;
      destruct (last_Card rest); simpl;
      rewrite ?orb_true_r, ?orb_false_r, ?orb_true_l; try reflexivity;
      now rewrite <- ?orb_assoc.
Qed.

Lemma Flag_eq (anns : list PyObj) :
  Flag anns =
  match last_Card anns with
  | Some c =>
      mkFlags (existsb isKey anns) (existsb isUnique anns)
        (Card.min c) (Card.max c) true
  | None =>
      if existsb isKey anns
      then mkFlags true (existsb isUnique anns) (Some 1) (Some 1) false
      else mkFlags false (existsb isUnique anns) None None false
  end.
Proof.
  unfold Flag. rewrite Flag_loop. simpl.
  destruct (last_Card anns); simpl.
  - now rewrite andb_false_r.
  - rewrite ?orb_false_r, ?andb_true_r. now destruct (existsb isKey anns).
Qed.

Lemma In_isKey anns : In Key anns <-> existsb isKey anns = true.
Proof.
  rewrite existsb_exists. split.
  - intros H. now exists Key.
  - intros [x [Hx Hk]]. destruct x; try discriminate. exact Hx.
Qed.

Lemma In_isUnique anns : In Unique anns <-> existsb isUnique anns = true.
Proof.
  rewrite existsb_exists. split.
  - intros H. now exists Unique.
  - intros [x [Hx Hk]]. destruct x; try discriminate. exact Hx.
Qed.

Lemma last_Card_None anns :
  (forall c, ~ In (CardObj c) anns) <-> last_Card anns = None.
Proof.
  induction anns as [|a rest IH]; simpl.
  - split; [reflexivity | intros _ c []].
  - split.
    + intros H. destruct (last_Card rest) eqn:E.
      * exfalso. assert (Hn : forall c, ~ In (CardObj c) rest)
          by (intros c Hc; apply (H c); now right).
        apply IH in Hn. discriminate.
      * destruct a; try reflexivity. exfalso. apply (H c). now left.
    + intros H c [Hc | Hc].
      * subst a. destruct (last_Card rest); discriminate.
      * destruct (last_Card rest) eqn:E; [discriminate|].
        destruct IH as [_ IH]. now apply (IH eq_refl c).
Qed.

Lemma existsb_filter {A} (p q : A -> bool) (l : list A) :
  (forall x, p x = true -> q x = true) ->
  existsb p (filter q l) = existsb p l.
Proof.
  intros Hpq. induction l as [|x l IH]; simpl; [reflexivity|].
  destruct (q x) eqn:Eq; simpl; rewrite IH; [reflexivity|].
  destruct (p x) eqn:Ep; [|reflexivity].
  apply Hpq in Ep. congruence.
Qed.

Lemma last_Card_filter (anns : list PyObj) :
  last_Card (filter is_marker anns) = last_Card anns.
Proof.
  induction anns as [|a rest IH]; simpl; [reflexivity|].
  destruct a; simpl; rewrite IH; now destruct (last_Card rest).
Qed.

Lemma mapM_Const (anns : list PyObj) :
  mapM eval_arg (map Const anns) = ret anns.
Proof.
  induction anns as [|a rest IH]; simpl; [reflexivity|].
  now rewrite IH.
Qed.

(** ** Rendering *)

(** With the key flag set the list is [@key], then [@unique] if set, and
    nothing else. *)
Lemma annotations_of_key (f : AttributeFlags) :
  is_key f = true ->
  to_typeql_annotations f =
  if is_unique f then ["@key"; "@unique"] else ["@key"].
Proof.
  intros Hk. unfold to_typeql_annotations. rewrite Hk. simpl.
  rewrite andb_false_r. now destruct (is_unique f).
Qed.

Lemma annotations_unique_default (f : AttributeFlags) :
  is_key f = false -> is_unique f = true ->
  card_min f = Some 1 -> card_max f = Some 1 ->
  to_typeql_annotations f = ["@unique"].
Proof.
  intros Hk Hu Hmin Hmax. unfold to_typeql_annotations.
  now rewrite Hk, Hu, Hmin, Hmax.
Qed.


(** ** The flag algebra *)


(** What [Flag] and the renderer do with [Unique] and no [Card], for
    every argument list: [@unique] is rendered and never a [@card]
    annotation; with [Key] the bounds are (1,1) and the list is [@key],
    [@unique]; without [Key] the list is [@unique] and both bounds are
    still unset, where the docstrings have (1,1). *)
Theorem unique_without_card (anns : list PyObj) :
  In Unique anns ->
  (forall c, ~ In (CardObj c) anns) ->
  In "@unique" (to_typeql_annotations (Flag anns)) /\
  (forall a, In a (to_typeql_annotations (Flag anns)) ->
             is_card_annotation a = false) /\
  (~ In Key anns ->
     card_min (Flag anns) = None /\ card_max (Flag anns) = None /\
     to_typeql_annotations (Flag anns) = ["@unique"]) /\
  (In Key anns ->
     card_min (Flag anns) = Some 1 /\ card_max (Flag anns) = Some 1 /\
     to_typeql_annotations (Flag anns) = ["@key"; "@unique"]).
Proof.
  intros Hu Hc. rewrite In_isKey.
  apply In_isUnique in Hu. apply last_Card_None in Hc.
  rewrite Flag_eq, Hc, Hu.
  destruct (existsb isKey anns); cbn.
  - split; [now right; left|]. split; [intros a H; no_card_in H|].
    split; [intros H; now elim H | intros _; repeat split].
  - split; [now left|]. split; [intros a H; no_card_in H|].
    split; [intros _; repeat split | discriminate].
Qed.

Lemma unique_without_card_witness :
  In "@unique" (to_typeql_annotations (Flag [NoneObj; Unique])) /\
  (forall a, In a (to_typeql_annotations (Flag [NoneObj; Unique])) ->
             is_card_annotation a = false) /\
  (~ In Key [NoneObj; Unique] ->
     card_min (Flag [NoneObj; Unique]) = None /\
     card_max (Flag [NoneObj; Unique]) = None /\
     to_typeql_annotations (Flag [NoneObj; Unique]) = ["@unique"]) /\
  (In Key [NoneObj; Unique] ->
     card_min (Flag [NoneObj; Unique]) = Some 1 /\
     card_max (Flag [NoneObj; Unique]) = Some 1 /\
     to_typeql_annotations (Flag [NoneObj; Unique]) = ["@key"; "@unique"]).
Proof.
  apply (unique_without_card [NoneObj; Unique]).
  - simpl. right. left. reflexivity.
  - intros c H. simpl in H.
    destruct H as [H | [H | H]]; [discriminate H | discriminate H | exact H].
Defined.

(** C3, as stated, fails: the exception [Card(1, 2, 3)] raises is a
    [ValueError], not a [ConfigurationError]. *)
Lemma card_error_is_not_ConfigurationError :
  ~ exists msg,
      Card.__init__ [1; 2; 3] None None
      = raise (mkExc "ConfigurationError" msg).
Proof. intros [msg H]. discriminate H. Qed.

(** C3, amended: a [Card] call with more than two positional bounds
    raises [ValueError] inside the constructor, and a field declaration
    holding such a call raises it before [Flag] is ever entered. *)
Theorem card_too_many_positional :
  (forall args min max,
     (2 < length args)%nat ->
     Card.__init__ args min max
     = raise (ValueError "Card accepts at most 2 positional arguments")) /\
  (forall es args min max,
     In (CardCall args min max) es ->
     (2 < length args)%nat ->
     Flag_call es
     = raise (ValueError "Card accepts at most 2 positional arguments")).
Proof.
  assert (Hinit : forall args min max,
     (2 < length args)%nat ->
     Card.__init__ args min max
     = raise (ValueError "Card accepts at most 2 positional arguments")).
  { intros [|a0 [|a1 [|a2 args]]] min max Hlen; simpl in Hlen; try lia.
    reflexivity. }
  split; [exact Hinit|].
  intros es args min max Hin Hlen. unfold Flag_call.
  assert (Hm : mapM eval_arg es
     = raise (ValueError "Card accepts at most 2 positional arguments")).
  { induction es as [|e es IH]; [contradiction|].
    simpl. destruct e as [o | args' min' max'].
    - simpl. destruct Hin as [Hin | Hin]; [discriminate|].
      now rewrite (IH Hin).
    - simpl.
      destruct args' as [|b0 [|b1 [|b2 args']]]; simpl.
      + destruct Hin as [Hin | Hin];
          [injection Hin as <- _ _; simpl in Hlen; lia|].
        rewrite (IH Hin). now destruct min', max'.
      + destruct Hin as [Hin | Hin];
          [injection Hin as <- _ _; simpl in Hlen; lia|].
        now rewrite (IH Hin).
      + destruct Hin as [Hin | Hin];
          [injection Hin as <- _ _; simpl in Hlen; lia|].
        now rewrite (IH Hin).
      + reflexivity. }
  now rewrite Hm.
Qed.

Lemma card_too_many_positional_witness :
  Card.__init__ [1; 2; 3] None None
  = raise (ValueError "Card accepts at most 2 positional arguments") /\
  Flag_call [Const Key; CardCall [1; 2; 3] None None]
  = raise (ValueError "Card accepts at most 2 positional arguments").
Proof.
  split.
  - apply (proj1 card_too_many_positional [1; 2; 3] None None).
    simpl. lia.
  - apply (proj2 card_too_many_positional
             [Const Key; CardCall [1; 2; 3] None None] [1; 2; 3] None None).
    + simpl. right. left. reflexivity.
    + simpl. lia.
Defined.

(** C4: a field declared with [Key], whatever else accompanies it, renders
    [@key] and no [@card] annotation; without an explicit [Card] its
    resolved cardinality is (1,1). *)
Theorem key_annotations (anns : list PyObj) :
  In Key anns ->
  In "@key" (to_typeql_annotations (Flag anns)) /\
  (forall a, In a (to_typeql_annotations (Flag anns)) ->
             is_card_annotation a = false) /\
  ((forall c, ~ In (CardObj c) anns) ->
   card_min (Flag anns) = Some 1 /\ card_max (Flag anns) = Some 1).
Proof.
  intros Hk. apply In_isKey in Hk.
  assert (Hkey : is_key (Flag anns) = true).
  { rewrite Flag_eq, Hk. now destruct (last_Card anns). }
  rewrite (annotations_of_key _ Hkey).
  split; [destruct (is_unique (Flag anns)); now left|].
  split.
  - intros a H. destruct (is_unique (Flag anns)); no_card_in H.
  - intros Hc. apply last_Card_None in Hc.
    rewrite Flag_eq, Hc, Hk. now split.
Qed.

Lemma key_annotations_witness :
  In "@key"
    (to_typeql_annotations (Flag [Key; CardObj (Card.mk (Some 1) None)])) /\
  (forall a,
     In a (to_typeql_annotations
             (Flag [Key; CardObj (Card.mk (Some 1) None)])) ->
     is_card_annotation a = false) /\
  ((forall c, ~ In (CardObj c) [Key; CardObj (Card.mk (Some 1) None)]) ->
   card_min (Flag [Key; CardObj (Card.mk (Some 1) None)]) = Some 1 /\
   card_max (Flag [Key; CardObj (Card.mk (Some 1) None)]) = Some 1).
Proof.
  apply (key_annotations [Key; CardObj (Card.mk (Some 1) None)]).
  simpl. left. reflexivity.
Defined.

(** C5: [Card(min=2)] renders [@card(2..)], [Card(1, 5)] renders
    [@card(1..5)], and [Card(max=5)] takes 0 for its minimum and renders
    [@card(0..5)]. *)
Theorem card_rendering :
  field_annotations [CardCall [] (Some 2) None] = ret ["@card(2..)"] /\
  field_annotations [CardCall [1; 5] None None] = ret ["@card(1..5)"] /\
  Card.__init__ [] None (Some 5) = ret (Card.mk (Some 0) (Some 5)) /\
  field_annotations [CardCall [] None (Some 5)] = ret ["@card(0..5)"].
Proof. repeat split. Qed.

(** C6: flags with [is_unique] set and cardinality exactly (1,1) render
    [@unique] and no [@card] annotation. *)
Theorem unique_default_card_omitted (f : AttributeFlags) :
  is_unique f = true ->
  card_min f = Some 1 ->
  card_max f = Some 1 ->
  In "@unique" (to_typeql_annotations f) /\
  (forall a, In a (to_typeql_annotations f) -> is_card_annotation a = false).
Proof.
  intros Hu Hmin Hmax. destruct (is_key f) eqn:Hk.
  - rewrite (annotations_of_key _ Hk), Hu.
    split; [now right; left | intros a H; no_card_in H].
  - rewrite (annotations_unique_default _ Hk Hu Hmin Hmax).
    split; [now left | intros a H; no_card_in H].
Qed.

Lemma unique_default_card_omitted_witness :
  Flag_call [Const Unique; CardCall [1; 1] None None]
  = ret (mkFlags false true (Some 1) (Some 1) true) /\
  In "@unique"
    (to_typeql_annotations (mkFlags false true (Some 1) (Some 1) true)) /\
  (forall a,
     In a (to_typeql_annotations (mkFlags false true (Some 1) (Some 1) true)) ->
     is_card_annotation a = false).
Proof.
  split; [reflexivity|].
  apply (unique_default_card_omitted
           (mkFlags false true (Some 1) (Some 1) true));
    reflexivity.
Defined.

(** C7: whatever the flags, the rendered list is [@key] if the key flag is
    set, then [@unique] if the unique flag is set, then at most one
    [@card(...)] annotation, and nothing else. *)
Theorem annotation_order (f : AttributeFlags) :
  exists card_part : list string,
    to_typeql_annotations f =
      ((if is_key f then ["@key"] else []) ++
       (if is_unique f then ["@unique"] else []) ++ card_part)%list /\
    (card_part = [] \/
     exists lo : Z,
       card_part = ["@card(" ++ str_int lo ++ "..)"] \/
       exists hi : Z,
         card_part = ["@card(" ++ str_int lo ++ ".." ++ str_int hi ++ ")"]).
Proof.
  unfold to_typeql_annotations.
  destruct ((is_Some (card_min f) || is_Some (card_max f))
            && negb (is_key f)) eqn:Hout; cbv zeta.
  2: { exists []. split; [|now left].
       destruct (is_key f), (is_unique f); reflexivity. }
  destruct (negb (is_unique f
                  && (eq_int (card_min f) 1 && eq_int (card_max f) 1)))
    eqn:Hdef.
  2: { exists []. split; [|now left].
       destruct (is_key f), (is_unique f); reflexivity. }
  destruct (card_max f) as [mx|].
  - eexists. split.
    + destruct (is_key f), (is_unique f); reflexivity.
    + right. eexists. right. eexists. reflexivity.
  - eexists. split.
    + destruct (is_key f), (is_unique f); reflexivity.
    + right. eexists. left. reflexivity.
Qed.

(** C9: [Flag] returns for every argument list; an argument that is not
    [Key], [Unique] or a [Card] instance changes nothing; and [Flag()] is
    the all-default flags. *)
Theorem Flag_total_ignores_others :
  (forall anns, Flag_call (map Const anns) = ret (Flag anns)) /\
  (forall anns, Flag anns = Flag (filter is_marker anns)) /\
  (forall before o after,
     is_marker o = false ->
     Flag (before ++ o :: after) = Flag (before ++ after)) /\
  Flag [] = mkFlags false false None None false.
Proof.
  assert (Hfilter : forall anns, Flag anns = Flag (filter is_marker anns)).
  { intros anns. rewrite (Flag_eq anns), (Flag_eq (filter is_marker anns)).
    rewrite last_Card_filter.
    rewrite !existsb_filter; [reflexivity| |];
      intros x Hx; unfold is_marker; rewrite Hx;
      now rewrite ?orb_true_r. }
  split; [|split; [exact Hfilter|split; [|reflexivity]]].
  - intros anns. unfold Flag_call. now rewrite mapM_Const.
  - intros before o after Ho.
    rewrite (Hfilter (before ++ o :: after)%list).
    rewrite (Hfilter (before ++ after)%list).
    rewrite !filter_app. simpl. now rewrite Ho.
Qed.

Lemma Flag_total_ignores_others_witness :
  Flag ([Key] ++ StrObj "x" :: [Unique]) = Flag ([Key] ++ [Unique]).
Proof.
  apply (proj1 (proj2 (proj2 Flag_total_ignores_others))
           [Key] (StrObj "x") [Unique]).
  reflexivity.
Defined.

(** ** Attribute classes *)

Lemma string_app_assoc (a b c : string) : (a ++ b) ++ c = a ++ b ++ c.
Proof. induction a as [|x a IH]; simpl; [reflexivity | now rewrite IH]. Qed.

(** C1, as stated, fails: for a subtype the code writes no comma between
    the name and [sub]. *)
Lemma schema_definition_sub_has_no_comma :
  to_schema_definition ascii_lower
    (class_def ascii_lower "FirstName" (String_ ascii_lower)
       (mkNS None None None (Some (Some "name"))))
  = ret "attribute firstname sub name, value string;" /\
  to_schema_definition ascii_lower
    (class_def ascii_lower "FirstName" (String_ ascii_lower)
       (mkNS None None None (Some (Some "name"))))
  <> ret (schema_grammar "firstname" (Some "name") "string" false).
Proof. split; [reflexivity | discriminate]. Qed.

(** C1, amended: the definition text is
    [attribute <name>[ sub <super>], value <kind>[, abstract];], with no
    comma between the name and [sub]; the [sub] clause is there exactly
    when the supertype is a non-empty string, the [abstract] clause
    exactly when the abstract flag is set; without a supertype the text is
    the one of the specification's grammar. *)
Theorem schema_definition_text (lower : string -> string) (cls : PyClass)
    (name kind : string) (supertype : option string) (is_abs : bool) :
  get_attribute_name lower cls = ret name ->
  get_value_type cls = ret kind ->
  get_supertype cls = ret supertype ->
  is_abstract cls = ret is_abs ->
  to_schema_definition lower cls
  = ret (schema_text name supertype kind is_abs) /\
  (supertype = None ->
   to_schema_definition lower cls
   = ret (schema_grammar name None kind is_abs)).
Proof.
  intros Hn Hk Hs Ha.
  assert (H : to_schema_definition lower cls
              = ret (schema_text name supertype kind is_abs)).
  { unfold to_schema_definition.
    unfold get_supertype in Hs. unfold is_abstract in Ha.
    rewrite Hn, Hk. cbn [bind ret]. rewrite Hs. cbn [bind ret].
    rewrite Ha. cbn [bind ret]. unfold schema_text.
    destruct supertype as [[|c s']|], is_abs; cbn [truthy];
      rewrite ?string_app_assoc; reflexivity. }
  split; [exact H|].
  intros ->. exact H.
Qed.

Lemma schema_definition_text_witness :
  to_schema_definition ascii_lower
    (class_def ascii_lower "FirstName" (String_ ascii_lower)
       (mkNS None None (Some true) (Some (Some "name"))))
  = ret "attribute firstname sub name, value string, abstract;".
Proof.
  apply (schema_definition_text ascii_lower
           (class_def ascii_lower "FirstName" (String_ ascii_lower)
              (mkNS None None (Some true) (Some (Some "name"))))
           "firstname" "string" (Some "name") true);
    reflexivity.
Defined.

(** C10: every subclass of [Attribute] answers [get_attribute_name] with
    its own class name lowercased, whatever its base and whatever its body
    binds; the name is set anew by each class statement. *)
Theorem attribute_name_rederived (lower : string -> string) :
  (forall name base body,
     get_attribute_name lower (class_def lower name base body)
     = ret (lower name)) /\
  (forall cls,
     attribute_subclass lower cls ->
     get_attribute_name lower cls = ret (lower (__name__ cls))).
Proof.
  assert (H : forall name base body,
     get_attribute_name lower (class_def lower name base body)
     = ret (lower name)).
  { intros name base body. unfold get_attribute_name, getattr. cbn.
    now destruct (lower name). }
  split; [exact H|].
  intros cls Hsub. destruct Hsub as [name body | name base body _]; apply H.
Qed.

Lemma attribute_name_rederived_witness :
  get_attribute_name ascii_lower
    (class_def ascii_lower "Name" (String_ ascii_lower) pass)
  = ret "name".
Proof.
  apply (proj2 (attribute_name_rederived ascii_lower)
           (class_def ascii_lower "Name" (String_ ascii_lower) pass)).
  apply sub_subclass. apply sub_Attribute.
Defined.

(** ** Keyword lookups and role-field expressions *)

Lemma split_dunder_clean_app (s rest : string) :
  clean_segment s = true ->
  split_dunder (s ++ "__" ++ rest) = s :: split_dunder rest.
Proof.
  induction s as [|c s IH]; intros Hc; [reflexivity|].
  cbn [String.append split_dunder].
  cbn [clean_segment] in Hc.
  destruct s as [|c' s'].
  - destruct (Ascii.eqb c "_") eqn:Ec; [discriminate|].
    cbn [String.append]. cbn [andb].
    change (cons_head c (split_dunder ("" ++ "__" ++ rest))
            = String c "" :: split_dunder rest).
    now rewrite (IH eq_refl).
  - cbn [String.append].
    assert (Hs : clean_segment (String c' s') = true /\
                 (Ascii.eqb c "_" && Ascii.eqb c' "_")%bool = false).
    { destruct (Ascii.eqb c "_"); [|now split].
      apply andb_true_iff in Hc. destruct Hc as [Hn Hc].
      split; [exact Hc|]. now destruct (Ascii.eqb c' "_"). }
    destruct Hs as [Hs ->].
    change (cons_head c (split_dunder (String c' s' ++ "__" ++ rest))
            = String c (String c' s') :: split_dunder rest).
    now rewrite (IH Hs).
Qed.

Lemma split_dunder_clean (s : string) :
  clean_segment s = true -> split_dunder s = [s].
Proof.
  induction s as [|c s IH]; intros Hc; [reflexivity|].
  cbn [split_dunder]. cbn [clean_segment] in Hc.
  destruct s as [|c' s']; [reflexivity|].
  assert (Hs : clean_segment (String c' s') = true /\
               (Ascii.eqb c "_" && Ascii.eqb c' "_")%bool = false).
  { destruct (Ascii.eqb c "_"); [|now split].
    apply andb_true_iff in Hc. destruct Hc as [Hn Hc].
    split; [exact Hc|]. now destruct (Ascii.eqb c' "_"). }
  destruct Hs as [Hs ->]. now rewrite (IH Hs).
Qed.

Lemma op_name_clean (op : Operator) : clean_segment (op_name op) = true.
Proof. now destruct op. Qed.

Lemma parse_op_name (op : Operator) : parse_op (op_name op) = Some op.
Proof. now destruct op. Qed.

Lemma ValueKind_eqb_refl (k : ValueKind) : ValueKind_eqb k k = true.
Proof. now destruct k. Qed.

Lemma parse_lookup_key (role attribute : string) (op : Operator)
    (value : Primitive) :
  clean_segment role = true ->
  clean_segment attribute = true ->
  parse_lookup (lookup_key role attribute op) value
  = mkPred [role; attribute] op value.
Proof.
  intros Hr Ha. unfold parse_lookup, lookup_key.
  rewrite (split_dunder_clean_app role _ Hr).
  rewrite (split_dunder_clean_app attribute _ Ha).
  rewrite (split_dunder_clean _ (op_name_clean op)).
  cbn [rev app]. now rewrite parse_op_name.
Qed.

(** C8: a predicate on a role player's attribute that the schema
    accepts (the role and the attribute are declared, the operand has the
    attribute's value kind, the operator is valid on it), written as the
    keyword lookup [role__attribute__op=value] or as the typed expression
    [Relation.role.attribute.op(value)], is the same Predicate
    (path segments, operator, operand), and either surface compiles, to
    the same query text; with the operator left out, the keyword form is
    the [eq] predicate. *)
Theorem lookup_and_expression_agree (emit : list Predicate -> string)
    (sch : RelationSchema) (role attribute : string) (op : Operator)
    (kind : ValueKind) (value : Primitive) :
  clean_segment role = true ->
  clean_segment attribute = true ->
  resolve_path sch [role; attribute] = ret kind ->
  kind_of value = kind ->
  op_valid op kind = true ->
  role_field_op (mkRoleField role attribute kind) op (mkOperand kind value)
  = ret (mkPred [role; attribute] op value) /\
  parse_lookup (lookup_key role attribute op) value
  = mkPred [role; attribute] op value /\
  compile emit sch [Lookup (lookup_key role attribute op) value]
  = ret (emit [mkPred [role; attribute] op value]) /\
  (forall p,
     role_field_op (mkRoleField role attribute kind) op (mkOperand kind value)
     = ret p ->
     compile emit sch [Expr p] = ret (emit [mkPred [role; attribute] op value]))
  /\
  (parse_op attribute = None ->
   parse_lookup (role ++ "__" ++ attribute) value
   = mkPred [role; attribute] op_eq value).
Proof.
  intros Hr Ha Hres Hkind Hop.
  assert (Hexpr : role_field_op (mkRoleField role attribute kind) op
                    (mkOperand kind value)
                  = ret (mkPred [role; attribute] op value)).
  { unfold role_field_op. cbn [rf_kind operand_kind rf_role rf_attribute
                               operand_value].
    now rewrite ValueKind_eqb_refl, Hop. }
  assert (Hcheck : check_predicate sch (mkPred [role; attribute] op value)
                   = ret tt).
  { unfold check_predicate. cbn [pathSegments operand operator].
    rewrite Hres. cbn [bind ret]. rewrite Hkind.
    now rewrite ValueKind_eqb_refl, Hop. }
  split; [exact Hexpr|]. split; [now apply parse_lookup_key|].
  split; [|split].
  - unfold compile. cbn [map normalize].
    rewrite (parse_lookup_key role attribute op value Hr Ha).
    cbn [mapM]. now rewrite Hcheck.
  - intros p Hp. rewrite Hexpr in Hp. injection Hp as <-.
    unfold compile. cbn [map normalize mapM]. now rewrite Hcheck.
  - intros Hnop. unfold parse_lookup.
    rewrite (split_dunder_clean_app role _ Hr).
    rewrite (split_dunder_clean _ Ha).
    cbn [rev app]. now rewrite Hnop.
Qed.

Lemma lookup_and_expression_agree_witness :
  role_field_op (mkRoleField "employee" "age" kind_integer) op_gt
    (mkOperand kind_integer (PInt 25))
  = ret (mkPred ["employee"; "age"] op_gt (PInt 25)) /\
  parse_lookup "employee__age__gt" (PInt 25)
  = mkPred ["employee"; "age"] op_gt (PInt 25) /\
  compile (fun ps => str_int (Z.of_nat (length ps)))
    (mkSchema [("salary", kind_integer)]
       [("employee", [("name", kind_string); ("age", kind_integer)])])
    [Lookup "employee__age__gt" (PInt 25)]
  = ret "1" /\
  (forall p,
     role_field_op (mkRoleField "employee" "age" kind_integer) op_gt
       (mkOperand kind_integer (PInt 25)) = ret p ->
     compile (fun ps => str_int (Z.of_nat (length ps)))
       (mkSchema [("salary", kind_integer)]
          [("employee", [("name", kind_string); ("age", kind_integer)])])
       [Expr p]
     = ret "1") /\
  (parse_op "age" = None ->
   parse_lookup "employee__age" (PInt 25)
   = mkPred ["employee"; "age"] op_eq (PInt 25)).
Proof.
  apply (lookup_and_expression_agree
           (fun ps => str_int (Z.of_nat (length ps)))
           (mkSchema [("salary", kind_integer)]
              [("employee", [("name", kind_string); ("age", kind_integer)])])
           "employee" "age" op_gt kind_integer (PInt 25));
    reflexivity.
Defined.

(** A predicate the schema does not accept is refused on both surfaces
    and no query text is produced: an operator that is not valid on the
    attribute's kind, or an operand of another kind. *)
Lemma invalid_predicate_refused (emit : list Predicate -> string)
    (sch : RelationSchema) (role attribute : string) (op : Operator)
    (kind : ValueKind) (value : Primitive) :
  clean_segment role = true ->
  clean_segment attribute = true ->
  resolve_path sch [role; attribute] = ret kind ->
  kind_of value <> kind \/ op_valid op kind = false ->
  (exists e,
     role_field_op (mkRoleField role attribute kind) op
       (mkOperand (kind_of value) value) = raise e) /\
  (exists e,
     compile emit sch [Lookup (lookup_key role attribute op) value]
     = raise e).
Proof.
  intros Hr Ha Hres Hbad.
  assert (Hneq : kind_of value <> kind ->
                 ValueKind_eqb kind (kind_of value) = false /\
                 ValueKind_eqb (kind_of value) kind = false).
  { intros Hn. destruct (kind_of value), kind; simpl; split;
      try reflexivity; now elim Hn. }
  split.
  - unfold role_field_op. cbn [rf_kind operand_kind rf_attribute].
    destruct (ValueKind_eqb kind (kind_of value)) eqn:E; cbn [negb].
    + destruct Hbad as [Hn | Hop];
        [destruct (Hneq Hn) as [E' _]; congruence|].
      rewrite Hop. cbn [negb]. eexists; reflexivity.
    + eexists; reflexivity.
  - unfold compile. cbn [map normalize].
    rewrite (parse_lookup_key role attribute op value Hr Ha).
    cbn [mapM]. unfold check_predicate. cbn [pathSegments operand operator].
    rewrite Hres. cbn [bind ret].
    destruct (ValueKind_eqb (kind_of value) kind) eqn:E; cbn [negb].
    + destruct Hbad as [Hn | Hop];
        [destruct (Hneq Hn) as [_ E']; congruence|].
      rewrite Hop. cbn [negb bind raise]. eexists; reflexivity.
    + cbn [bind raise]. eexists; reflexivity.
Qed.

(** * Further properties *)

(** ** The [Card] constructor *)

Lemma Card_init_ok (args : list Z) (min max : option Z) :
  (length args <= 2)%nat ->
  exists c, Card.__init__ args min max = ret c.
Proof.
  destruct args as [|a0 [|a1 [|a2 args]]]; simpl; intros Hlen.
  - destruct min, max; eexists; reflexivity.
  - eexists; reflexivity.
  - eexists; reflexivity.
  - lia.
Qed.

Lemma Card_init_error (args : list Z) (min max : option Z) :
  (2 < length args)%nat ->
  Card.__init__ args min max
  = raise (ValueError "Card accepts at most 2 positional arguments").
Proof.
  destruct args as [|a0 [|a1 [|a2 args]]]; simpl; intros Hlen;
    try lia; reflexivity.
Qed.

(** X1: the [Card] constructor returns exactly when it is given at most
    two positional bounds, whatever the keywords. *)
Theorem Card_init_returns_iff (args : list Z) (min max : option Z) :
  (exists c, Card.__init__ args min max = ret c) <->
  (length args <= 2)%nat.
Proof.
  split.
  - intros [c Hc].
    destruct (Nat.le_gt_cases (length args) 2) as [Hle | Hgt]; [exact Hle|].
    rewrite (Card_init_error args min max Hgt) in Hc. discriminate.
  - apply Card_init_ok.
Qed.

(** X2: a constructed [Card] that has a maximum has a minimum: the
    keyword-only form fills in 0, the positional forms always give one. *)
Theorem Card_max_has_min (args : list Z) (min max : option Z) (c : Card.t) :
  Card.__init__ args min max = ret c ->
  Card.max c <> None ->
  Card.min c <> None.
Proof.
  destruct args as [|a0 [|a1 [|a2 args]]]; simpl.
  - destruct min, max; intros [= <-]; simpl; intros H; congruence.
  - intros [= <-]; simpl; congruence.
  - intros [= <-]; simpl; congruence.
  - discriminate.
Qed.

Lemma Card_max_has_min_witness :
  Card.min (Card.mk (Some 0) (Some 5)) <> None.
Proof.
  apply (Card_max_has_min [] None (Some 5) (Card.mk (Some 0) (Some 5))).
  - reflexivity.
  - simpl. discriminate.
Defined.

(** X3: positional bounds shadow the keywords they stand for: [Card(a)]
    is [Card(min=a)] with the given [max] keyword and drops a [min]
    keyword, [Card(a, b)] is [Card(min=a, max=b)] and drops both. *)
Theorem Card_positional_as_keywords (a b : Z) (min max : option Z) :
  Card.__init__ [a] min max = Card.__init__ [] (Some a) max /\
  Card.__init__ [a; b] min max = Card.__init__ [] (Some a) (Some b).
Proof. split; reflexivity. Qed.

(** ** Field declarations *)

Lemma eval_arg_ok (e : ArgExpr) :
  (forall args min max, e = CardCall args min max -> (length args <= 2)%nat) ->
  exists o, eval_arg e = ret o.
Proof.
  destruct e as [o | args min max]; intros H.
  - now exists o.
  - destruct (Card_init_ok args min max (H _ _ _ eq_refl)) as [c Hc].
    exists (CardObj c). simpl. now rewrite Hc.
Qed.

(** X4: a field declaration returns flags exactly when none of its [Card]
    calls has more than two positional bounds; nothing else in it can
    raise. *)
Theorem Flag_call_returns_iff (es : list ArgExpr) :
  (exists flags, Flag_call es = ret flags) <->
  (forall args min max,
     In (CardCall args min max) es -> (length args <= 2)%nat).
Proof.
  unfold Flag_call. split.
  - intros [flags Hf] args min max Hin.
    destruct (Nat.le_gt_cases (length args) 2) as [Hle | Hgt]; [exact Hle|].
    exfalso. revert Hf.
    assert (Hm : exists e, mapM eval_arg es = raise e).
    { induction es as [|e es IH]; [contradiction|].
      simpl. destruct (eval_arg e) as [x | o] eqn:He.
      - now exists x.
      - simpl. destruct Hin as [-> | Hin].
        + simpl in He. rewrite (Card_init_error args min max Hgt) in He.
          discriminate.
        + destruct (IH Hin) as [x Hx]. rewrite Hx. now exists x. }
    destruct Hm as [x ->]. discriminate.
  - intros Hall.
    assert (Hm : exists anns, mapM eval_arg es = ret anns).
    { induction es as [|e es IH]; [now exists []|].
      simpl.
      destruct (eval_arg_ok e) as [o ->].
      { intros args min max ->. apply (Hall args min max). now left. }
      destruct IH as [anns ->].
      { intros args min max Hin. apply (Hall args min max). now right. }
      now exists (o :: anns). }
    destruct Hm as [anns ->]. now exists (Flag anns).
Qed.

(** ** The loop of [Flag] *)

Lemma last_Card_app (l1 l2 : list PyObj) :
  last_Card (l1 ++ l2) =
  match last_Card l2 with
  | Some c => Some c
  | None => last_Card l1
  end.
Proof.
  induction l1 as [|a l1 IH]; simpl.
  - now destruct (last_Card l2).
  - rewrite IH. now destruct (last_Card l2).
Qed.

Lemma In_isCard (anns : list PyObj) :
  (exists c, In (CardObj c) anns) <-> last_Card anns <> None.
Proof.
  split.
  - intros [c Hc] Hn.
    exact (proj2 (last_Card_None anns) Hn c Hc).
  - intros Hn. induction anns as [|a rest IH]; [now elim Hn|].
    simpl in Hn. destruct (last_Card rest) eqn:E.
    + destruct IH as [c' Hc']; [discriminate|]. exists c'. now right.
    + destruct a; try (now elim Hn). exists c. now left.
Qed.

(** X5: the last [Card] instance of the argument list decides the
    bounds, wherever [Key] and [Unique] stand; [Key] never replaces an
    explicit cardinality by (1,1). *)
Theorem Flag_last_Card_wins (before after : list PyObj) (c : Card.t) :
  (forall c', ~ In (CardObj c') after) ->
  card_min (Flag (before ++ CardObj c :: after)) = Card.min c /\
  card_max (Flag (before ++ CardObj c :: after)) = Card.max c /\
  has_explicit_card (Flag (before ++ CardObj c :: after)) = true.
Proof.
  intros Hafter. apply last_Card_None in Hafter.
  rewrite Flag_eq, last_Card_app. simpl. rewrite Hafter. now repeat split.
Qed.

Lemma Flag_last_Card_wins_witness :
  card_min (Flag ([CardObj (Card.mk (Some 0) (Some 5))] ++
                  CardObj (Card.mk (Some 2) None) :: [Key])) = Some 2 /\
  card_max (Flag ([CardObj (Card.mk (Some 0) (Some 5))] ++
                  CardObj (Card.mk (Some 2) None) :: [Key])) = None /\
  has_explicit_card
    (Flag ([CardObj (Card.mk (Some 0) (Some 5))] ++
           CardObj (Card.mk (Some 2) None) :: [Key])) = true.
Proof.
  apply (Flag_last_Card_wins [CardObj (Card.mk (Some 0) (Some 5))] [Key]
           (Card.mk (Some 2) None)).
  intros c' H. simpl in H. destruct H as [H | H]; [discriminate H | exact H].
Defined.

(** X6: [has_explicit_card] is set exactly when a [Card] instance was
    passed; when it is not set the bounds are (1,1) for a key and unset
    otherwise. *)
Theorem Flag_explicit_card (anns : list PyObj) :
  (has_explicit_card (Flag anns) = true <-> exists c, In (CardObj c) anns) /\
  (has_explicit_card (Flag anns) = false ->
   (card_min (Flag anns), card_max (Flag anns)) =
   if is_key (Flag anns) then (Some 1, Some 1) else (None, None)).
Proof.
  rewrite In_isCard, Flag_eq.
  destruct (last_Card anns) as [c|]; simpl.
  - split; [split; [discriminate | reflexivity] | discriminate].
  - destruct (existsb isKey anns); simpl;
      (split; [split; [discriminate | intros H; now elim H] | reflexivity]).
Qed.

Lemma Flag_explicit_card_witness :
  (card_min (Flag [Unique; Key]), card_max (Flag [Unique; Key])) =
  if is_key (Flag [Unique; Key]) then (Some 1, Some 1) else (None, None).
Proof.
  apply (proj2 (Flag_explicit_card [Unique; Key])). reflexivity.
Defined.

(** X7: the place of an argument that is not a [Card] instance does not
    matter, and an argument repeated later makes its earlier occurrence
    redundant. *)
Theorem Flag_argument_order :
  (forall before m after,
     isCard m = false ->
     Flag (before ++ m :: after) = Flag (m :: before ++ after)) /\
  (forall l1 m l2 l3,
     Flag (l1 ++ m :: l2 ++ m :: l3) = Flag (l1 ++ l2 ++ m :: l3)).
Proof.
  split.
  - intros before m after Hm.
    rewrite (Flag_eq (before ++ m :: after)%list).
    rewrite (Flag_eq (m :: before ++ after)%list).
    rewrite !last_Card_app. simpl. rewrite !existsb_app. simpl.
    rewrite last_Card_app.
    assert (Hk : forall p : PyObj -> bool,
              existsb p before || (p m || existsb p after)
              = p m || (existsb p before || existsb p after)).
    { intros p. destruct (existsb p before), (p m); reflexivity. }
    rewrite !Hk.
    destruct m; try discriminate; simpl;
      destruct (last_Card after), (last_Card before); reflexivity.
  - intros l1 m l2 l3.
    rewrite (Flag_eq (l1 ++ m :: l2 ++ m :: l3)%list).
    rewrite (Flag_eq (l1 ++ l2 ++ m :: l3)%list).
    assert (Hk : forall p : PyObj -> bool,
              existsb p (l1 ++ m :: l2 ++ m :: l3)
              = existsb p (l1 ++ l2 ++ m :: l3)).
    { intros p. rewrite !existsb_app. simpl. rewrite !existsb_app. simpl.
      destruct (existsb p l1), (p m), (existsb p l2); reflexivity. }
    rewrite !Hk.
    assert (Hl : last_Card (l1 ++ m :: l2 ++ m :: l3)
                 = last_Card (l1 ++ l2 ++ m :: l3)).
    { rewrite (last_Card_app l1 (m :: l2 ++ m :: l3)).
      rewrite (last_Card_app l1 (l2 ++ m :: l3)).
      change (m :: l2 ++ m :: l3)%list with ([m] ++ l2 ++ m :: l3)%list.
      rewrite (last_Card_app [m] (l2 ++ m :: l3)).
      rewrite (last_Card_app l2 (m :: l3)).
      simpl. destruct (last_Card l3); [reflexivity|].
      destruct m; simpl; try reflexivity;
        destruct (last_Card l2); reflexivity. }
    now rewrite Hl.
Qed.

Lemma Flag_argument_order_witness :
  Flag ([CardObj (Card.mk (Some 2) None)] ++ Key :: [Unique])
  = Flag (Key :: [CardObj (Card.mk (Some 2) None)] ++ [Unique]).
Proof.
  apply (proj1 Flag_argument_order
           [CardObj (Card.mk (Some 2) None)] Key [Unique]).
  reflexivity.
Defined.

(** X8: the key and unique flags of the result say exactly whether [Key]
    and [Unique] were among the arguments; no later argument unsets
    them. *)
Theorem Flag_reflects_markers (anns : list PyObj) :
  (is_key (Flag anns) = true <-> In Key anns) /\
  (is_unique (Flag anns) = true <-> In Unique anns).
Proof.
  rewrite In_isKey, In_isUnique, Flag_eq.
  destruct (last_Card anns); simpl; [now split|].
  destruct (existsb isKey anns); simpl; split; split;
    congruence.
Qed.

(** X9: for a key field the [Card] instances among the arguments change
    nothing in the rendered annotations. *)
Theorem key_rendering_ignores_Card (anns : list PyObj) :
  In Key anns ->
  to_typeql_annotations (Flag anns)
  = to_typeql_annotations (Flag (filter (fun o => negb (isCard o)) anns)).
Proof.
  intros Hk. apply In_isKey in Hk.
  assert (Hkf : existsb isKey (filter (fun o => negb (isCard o)) anns) = true).
  { rewrite existsb_filter; [exact Hk|]. intros x Hx. now destruct x. }
  assert (Huf : existsb isUnique (filter (fun o => negb (isCard o)) anns)
                = existsb isUnique anns).
  { apply existsb_filter. intros x Hx. now destruct x. }
  rewrite !annotations_of_key.
  - rewrite !Flag_eq, Hk, Hkf, Huf.
    now destruct (last_Card anns), (last_Card (filter _ anns)).
  - rewrite Flag_eq, Hkf. now destruct (last_Card (filter _ anns)).
  - rewrite Flag_eq, Hk. now destruct (last_Card anns).
Qed.

Lemma key_rendering_ignores_Card_witness :
  to_typeql_annotations (Flag [CardObj (Card.mk (Some 0) (Some 5)); Key])
  = to_typeql_annotations
      (Flag (filter (fun o => negb (isCard o))
               [CardObj (Card.mk (Some 0) (Some 5)); Key])).
Proof.
  apply (key_rendering_ignores_Card
           [CardObj (Card.mk (Some 0) (Some 5)); Key]).
  simpl. right. left. reflexivity.
Defined.

(** ** Rendered annotations *)

(** X10: no flags render more than two annotations: a key never carries a
    cardinality annotation. *)
Theorem annotations_at_most_two (f : AttributeFlags) :
  (length (to_typeql_annotations f) <= 2)%nat.
Proof.
  unfold to_typeql_annotations.
  destruct (is_key f), (is_unique f); simpl;
    rewrite ?andb_false_r, ?andb_true_r;
    repeat match goal with
           | |- context [if ?b then _ else _] => destruct b
           | |- context [match ?o with Some _ => _ | None => _ end] =>
               destruct o
           end; simpl; lia.
Qed.

(** X11: a cardinality annotation is rendered exactly when some bound is
    set, the field is not a key, and it is not a unique field with bounds
    (1,1). *)
Theorem card_annotation_emitted_iff (f : AttributeFlags) :
  (exists a, In a (to_typeql_annotations f) /\ is_card_annotation a = true)
  <->
  ((card_min f <> None \/ card_max f <> None) /\
   is_key f = false /\
   ~ (is_unique f = true /\ card_min f = Some 1 /\ card_max f = Some 1)).
Proof.
  destruct f as [k u mn mx e]. unfold to_typeql_annotations.
  cbn [is_key is_unique card_min card_max].
  assert (Hno : forall l : list string,
            (forall a, In a l -> a = "@key" \/ a = "@unique") ->
            ~ exists a, In a l /\ is_card_annotation a = true).
  { intros l Hl [a [Ha Hc]]. destruct (Hl a Ha) as [-> | ->]; discriminate. }
  assert (Hku : forall a,
            In a (if u then append (if k then append [] "@key" else [])
                                   "@unique"
                  else if k then append [] "@key" else []) ->
            a = "@key" \/ a = "@unique").
  { intros a. destruct k, u; simpl; intuition auto. }
  destruct k.
  - (* key *)
    rewrite andb_false_r. split.
    + intros H. exfalso. exact (Hno _ Hku H).
    + intros [_ [Hk _]]. discriminate.
  - rewrite andb_true_r.
    destruct mn as [a|], mx as [b|]; cbn [is_Some orb eq_int andb].
    + (* both bounds *)
      destruct (Z.eqb_spec a 1) as [-> | Ha];
        [destruct (Z.eqb_spec b 1) as [-> | Hb]|]; cbn [andb];
        destruct u; cbn [andb negb].
      * split; [intros H; exfalso; exact (Hno _ Hku H)|].
        intros [_ [_ Hn]]. exfalso. apply Hn. now repeat split.
      * split; [|intros _; eexists; split; [now left | reflexivity]].
        intros _. split; [left; discriminate|].
        split; [reflexivity | intros [Hu _]; discriminate].
      * split; [intros _|intros _; eexists; split;
                           [right; now left | reflexivity]].
        split; [left; discriminate|].
        split; [reflexivity | intros [_ [_ Hx]]; congruence].
      * split; [intros _|intros _; eexists; split; [now left | reflexivity]].
        split; [left; discriminate|].
        split; [reflexivity | intros [Hu _]; discriminate].
      * split; [intros _|intros _; eexists; split;
                           [right; now left | reflexivity]].
        split; [left; discriminate|].
        split; [reflexivity | intros [_ [Hx _]]; congruence].
      * split; [intros _|intros _; eexists; split; [now left | reflexivity]].
        split; [left; discriminate|].
        split; [reflexivity | intros [Hu _]; discriminate].
    + (* minimum only *)
      rewrite andb_false_r. cbn [negb].
      split; [intros _|intros _; destruct u; eexists; split;
                         [right; now left | reflexivity
                         | now left | reflexivity]].
      split; [left; discriminate|].
      split; [reflexivity | intros [_ [_ Hx]]; discriminate].
    + (* maximum only *)
      rewrite andb_false_r. cbn [negb].
      split; [intros _|intros _; destruct u; eexists; split;
                         [right; now left | reflexivity
                         | now left | reflexivity]].
      split; [right; discriminate|].
      split; [reflexivity | intros [_ [Hx _]]; discriminate].
    + (* no bound *)
      split; [intros H; exfalso; exact (Hno _ Hku H)|].
      intros [[Hx | Hx] _]; now elim Hx.
Qed.

(** X12: with a maximum and no minimum the rendering is that of minimum
    0, whatever the other flags. *)
Theorem unset_min_renders_as_zero (k u e : bool) (mx : Z) :
  to_typeql_annotations (mkFlags k u None (Some mx) e)
  = to_typeql_annotations (mkFlags k u (Some 0) (Some mx) e).
Proof.
  unfold to_typeql_annotations. cbn [is_key is_unique card_min card_max].
  cbn [is_Some orb eq_int Z.eqb andb]. reflexivity.
Qed.

(** ** The text of a cardinality annotation *)

Lemma str_int_inj (a b : Z) : str_int a = str_int b -> a = b.
Proof.
  unfold str_int. intros H.
  assert (Hn : forall z, Z.to_int z <> Decimal.Pos Decimal.Nil /\
                         Z.to_int z <> Decimal.Neg Decimal.Nil).
  { intros [|p|p]; simpl; split; try discriminate;
      intros [= Hp]; exact (DecimalPos.Unsigned.to_uint_nonnil p Hp). }
  apply DecimalZ.to_int_inj.
  assert (Hs : Some (Z.to_int a) = Some (Z.to_int b)).
  { rewrite <- (NilZero.isi (Z.to_int a)); try apply Hn.
    rewrite <- (NilZero.isi (Z.to_int b)); try apply Hn.
    now rewrite H. }
  now injection Hs.
Qed.

Lemma uint_text_no_mark (c : ascii) (d : Decimal.uint) :
  c = "."%char \/ c = ")"%char ->
  occurs c (NilEmpty.string_of_uint d) = false.
Proof.
  intros Hc. induction d; simpl; try rewrite IHd;
    destruct Hc as [-> | ->]; reflexivity.
Qed.

Lemma str_int_no_mark (c : ascii) (n : Z) :
  c = "."%char \/ c = ")"%char -> occurs c (str_int n) = false.
Proof.
  intros Hc. unfold str_int.
  assert (Hu : forall d, occurs c (NilZero.string_of_uint d) = false).
  { intros d. destruct d; try (apply (uint_text_no_mark c _ Hc)).
    destruct Hc as [-> | ->]; reflexivity. }
  destruct (Z.to_int n) as [d | d]; simpl; [apply Hu|].
  rewrite Hu. destruct Hc as [-> | ->]; reflexivity.
Qed.

Lemma cut_at_first (c : ascii) (s1 s2 r1 r2 : string) :
  occurs c s1 = false -> occurs c s2 = false ->
  s1 ++ String c r1 = s2 ++ String c r2 ->
  s1 = s2 /\ r1 = r2.
Proof.
  revert s2. induction s1 as [|x s1 IH]; intros [|y s2]; simpl.
  - intros _ _ [= ->]. now split.
  - intros _ Hy [= <- _]. rewrite Ascii.eqb_refl in Hy. discriminate.
  - intros Hx _ [= -> _]. rewrite Ascii.eqb_refl in Hx. discriminate.
  - intros Hx Hy [= <- Hs].
    apply orb_false_iff in Hx. apply orb_false_iff in Hy.
    destruct (IH s2 (proj2 Hx) (proj2 Hy) Hs) as [-> ->]. now split.
Qed.

Lemma card_tail_inj (hi1 hi2 : option Z) :
  match hi1 with Some h => "." ++ str_int h ++ ")" | None => ".)" end
  = match hi2 with Some h => "." ++ str_int h ++ ")" | None => ".)" end ->
  hi1 = hi2.
Proof.
  assert (Hne : forall h, str_int h ++ ")" <> ")").
  { intros h E.
    destruct (cut_at_first ")" (str_int h) "" "" "") as [E' _];
      [apply str_int_no_mark; now right | reflexivity | exact E |].
    revert E'. unfold str_int.
    destruct (Z.to_int h) as [d | d]; simpl; [|discriminate].
    destruct d; discriminate. }
  destruct hi1 as [h1|], hi2 as [h2|]; simpl.
  - intros [= E].
    destruct (cut_at_first ")" (str_int h1) (str_int h2) "" "") as [E' _];
      [apply str_int_no_mark; now right
      |apply str_int_no_mark; now right | exact E |].
    now rewrite (str_int_inj _ _ E').
  - intros [= E]. now elim (Hne h1).
  - intros [= E]. symmetry in E. now elim (Hne h2).
  - reflexivity.
Qed.

(** X13: the text of a cardinality annotation determines its bounds: two
    plain fields (neither key nor unique) with a minimum render the same
    annotations only if their minima and their maxima are the same. *)
Theorem card_annotation_injective (lo1 lo2 : Z) (hi1 hi2 : option Z)
    (e1 e2 : bool) :
  to_typeql_annotations (mkFlags false false (Some lo1) hi1 e1)
  = to_typeql_annotations (mkFlags false false (Some lo2) hi2 e2) ->
  lo1 = lo2 /\ hi1 = hi2.
Proof.
  unfold to_typeql_annotations. cbn [is_key is_unique card_min card_max].
  cbn [is_Some orb negb andb append app].
  intros H.
  assert (E : str_int lo1 ++ "." ++
                match hi1 with
                | Some h => "." ++ str_int h ++ ")" | None => ".)" end
              = str_int lo2 ++ "." ++
                match hi2 with
                | Some h => "." ++ str_int h ++ ")" | None => ".)" end).
  { destruct hi1, hi2; simpl in H; injection H as H; exact H. }
  destruct (cut_at_first "." _ _ _ _
              (str_int_no_mark "." lo1 (or_introl eq_refl))
              (str_int_no_mark "." lo2 (or_introl eq_refl)) E) as [El Er].
  split; [now apply str_int_inj | now apply card_tail_inj].
Qed.

Lemma card_annotation_injective_witness :
  (1 : Z) = 1 /\ Some (5 : Z) = Some 5.
Proof.
  apply (card_annotation_injective 1 1 (Some 5) (Some 5) true false).
  reflexivity.
Defined.

(** X14: [Card(a, b)] and [Card(min=a)] on an otherwise plain field
    render [@card(a..b)] and [@card(a..)] for every pair of integers:
    the bounds are not checked against each other or against 0. *)
Theorem card_bounds_rendered_unchecked (a b : Z) :
  field_annotations [CardCall [a; b] None None]
  = ret ["@card(" ++ str_int a ++ ".." ++ str_int b ++ ")"] /\
  field_annotations [CardCall [] (Some a) None]
  = ret ["@card(" ++ str_int a ++ "..)"].
Proof. split; reflexivity. Qed.

(** X15: a [Card] without any bound counts as explicit but renders no
    cardinality annotation, and it keeps a key from getting (1,1). *)
Theorem unbounded_Card_renders_nothing (before after : list PyObj) :
  (forall c', ~ In (CardObj c') after) ->
  has_explicit_card (Flag (before ++ CardObj (Card.mk None None) :: after))
  = true /\
  card_min (Flag (before ++ CardObj (Card.mk None None) :: after)) = None /\
  card_max (Flag (before ++ CardObj (Card.mk None None) :: after)) = None /\
  (forall a,
     In a (to_typeql_annotations
             (Flag (before ++ CardObj (Card.mk None None) :: after))) ->
     is_card_annotation a = false).
Proof.
  intros Hafter. apply last_Card_None in Hafter.
  rewrite Flag_eq, last_Card_app. simpl. rewrite Hafter.
  repeat split.
  intros a. unfold to_typeql_annotations. simpl.
  destruct (existsb isKey _), (existsb isUnique _); simpl;
    intros H; no_card_in H.
Qed.

Lemma unbounded_Card_renders_nothing_witness :
  has_explicit_card (Flag ([Key] ++ CardObj (Card.mk None None) :: [Unique]))
  = true /\
  card_min (Flag ([Key] ++ CardObj (Card.mk None None) :: [Unique])) = None /\
  card_max (Flag ([Key] ++ CardObj (Card.mk None None) :: [Unique])) = None /\
  (forall a,
     In a (to_typeql_annotations
             (Flag ([Key] ++ CardObj (Card.mk None None) :: [Unique]))) ->
     is_card_annotation a = false).
Proof.
  apply (unbounded_Card_renders_nothing [Key] [Unique]).
  intros c' H. simpl in H. destruct H as [H | H]; [discriminate H | exact H].
Defined.

(** ** Class attributes along the MRO *)

Lemma lookup_class_def {A} (lower : string -> string)
    (field : Namespace -> option A) (name : string) (base : PyClass)
    (body : Namespace) :
  field (__dict__ (class_def lower name base body)) = field body ->
  lookup field (__mro__ (class_def lower name base body)) =
  match field body with
  | Some v => Some v
  | None => lookup field (__mro__ base)
  end.
Proof.
  intros H. unfold __mro__ at 1. cbn [lookup]. rewrite H.
  reflexivity.
Qed.

Lemma subclass_binds_flags (lower : string -> string) (cls : PyClass) :
  attribute_subclass lower cls ->
  lookup abstract (__mro__ cls) <> None /\
  lookup _supertype (__mro__ cls) <> None.
Proof.
  induction 1 as [name body | name base body Hbase [IHa IHs]].
  - rewrite !lookup_class_def by reflexivity.
    destruct (abstract body), (_supertype body); simpl; split; discriminate.
  - rewrite !lookup_class_def by reflexivity.
    destruct (abstract body), (_supertype body); split;
      try discriminate; assumption.
Qed.

(** X16: a class statement with an empty body gives a class whose schema
    definition has its own lowercased name and the value type, supertype
    and abstract flag its base resolves to. *)
Theorem empty_subclass_schema_definition (lower : string -> string)
    (name : string) (base : PyClass) (kind : string)
    (supertype : option string) (is_abs : bool) :
  get_value_type base = ret kind ->
  get_supertype base = ret supertype ->
  is_abstract base = ret is_abs ->
  to_schema_definition lower (class_def lower name base pass)
  = ret (schema_text (lower name) supertype kind is_abs).
Proof.
  unfold get_value_type, get_supertype, is_abstract, getattr.
  intros Hk Hs Ha.
  destruct (lookup value_type (__mro__ base)) as [k|] eqn:Ek;
    [|discriminate]. injection Hk as ->.
  destruct (lookup _supertype (__mro__ base)) as [s|] eqn:Es;
    [|discriminate]. injection Hs as ->.
  destruct (lookup abstract (__mro__ base)) as [a|] eqn:Ea;
    [|discriminate]. injection Ha as ->.
  unfold to_schema_definition, get_attribute_name, get_value_type, getattr.
  rewrite (lookup_class_def lower value_type) by reflexivity.
  rewrite (lookup_class_def lower _supertype) by reflexivity.
  rewrite (lookup_class_def lower abstract) by reflexivity.
  cbn [pass value_type abstract _supertype].
  rewrite Ek, Es, Ea.
  unfold class_def, __init_subclass__, __mro__.
  cbn [__dict__ __name__ _attr_name lookup bind ret].
  unfold schema_text.
  destruct (lower name) as [|c n];
    destruct supertype as [[|c' s']|], is_abs; cbn [truthy bind ret];
      rewrite ?string_app_assoc; reflexivity.
Qed.

Lemma empty_subclass_schema_definition_witness :
  to_schema_definition ascii_lower
    (class_def ascii_lower "Nickname"
       (class_def ascii_lower "Name" (String_ ascii_lower)
          (mkNS None None (Some true) None))
       pass)
  = ret "attribute nickname, value string, abstract;".
Proof.
  apply (empty_subclass_schema_definition ascii_lower "Nickname"
           (class_def ascii_lower "Name" (String_ ascii_lower)
              (mkNS None None (Some true) None))
           "string" None true);
    reflexivity.
Defined.

(** X17: on a subclass of [Attribute] the schema definition can fail in
    one way only: it returns a text when [value_type] is bound somewhere
    along the MRO and raises [AttributeError] when it is not. *)
Theorem schema_definition_needs_value_type (lower : string -> string)
    (cls : PyClass) :
  attribute_subclass lower cls ->
  match lookup value_type (__mro__ cls) with
  | Some _ => exists text, to_schema_definition lower cls = ret text
  | None =>
      exists e, to_schema_definition lower cls = raise e /\
                exc_class e = "AttributeError"
  end.
Proof.
  intros Hsub.
  destruct (subclass_binds_flags lower cls Hsub) as [Ha Hs].
  assert (Hn : exists n, get_attribute_name lower cls = ret n).
  { destruct Hsub as [name body | name base body _];
      unfold get_attribute_name, getattr, class_def, __init_subclass__;
      cbn; destruct (lower name); eexists; reflexivity. }
  destruct Hn as [n Hn].
  unfold to_schema_definition, get_value_type, getattr. rewrite Hn.
  cbn [bind ret].
  destruct (lookup value_type (__mro__ cls)) as [k|]; cbn [bind ret raise].
  - destruct (lookup _supertype (__mro__ cls)) as [s|]; [|now elim Hs].
    destruct (lookup abstract (__mro__ cls)) as [a|]; [|now elim Ha].
    cbn [bind ret]. eexists; reflexivity.
  - eexists. split; reflexivity.
Qed.

Lemma schema_definition_needs_value_type_witness :
  exists e,
    to_schema_definition ascii_lower
      (class_def ascii_lower "Untyped" Attribute pass) = raise e /\
    exc_class e = "AttributeError".
Proof.
  apply (schema_definition_needs_value_type ascii_lower
           (class_def ascii_lower "Untyped" Attribute pass)).
  apply sub_Attribute.
Defined.

(** X18: the value type is inherited through any number of class
    statements that do not bind it again; every such descendant of
    [String], [Long], [Double], [Boolean] or [DateTime] has that class's
    kind. *)
Theorem value_type_inherited (lower : string -> string)
    (root cls : PyClass) :
  keeps_value_type lower root cls ->
  get_value_type cls = get_value_type root.
Proof.
  induction 1 as [|name base body Hbase IH Hbody]; [reflexivity|].
  rewrite <- IH. unfold get_value_type, getattr.
  rewrite lookup_class_def by reflexivity. now rewrite Hbody.
Qed.

Lemma value_type_inherited_witness :
  get_value_type
    (class_def ascii_lower "Nickname"
       (class_def ascii_lower "Name" (String_ ascii_lower) pass)
       (mkNS None None None (Some (Some "name"))))
  = ret "string".
Proof.
  apply (value_type_inherited ascii_lower (String_ ascii_lower)
           (class_def ascii_lower "Nickname"
              (class_def ascii_lower "Name" (String_ ascii_lower) pass)
              (mkNS None None None (Some (Some "name"))))).
  apply keeps_step; [|reflexivity].
  apply keeps_step; [|reflexivity].
  apply keeps_root.
Defined.
